(** * umodbus.server.serial: the serial Modbus server

    A shallow embedding of [umodbus/server/serial/__init__.py]
    ([get_server] and the class [AbstractSerialServer]) and the properties
    of its request pipeline: frame splitting, route registration, the
    exception handling of [execute_route] and the serve loop.

    Python values are modelled as follows.
    - A [bytearray] is a list of integers, each meant to lie in [0, 256).
    - An exception is a value of [exn]; a call that may raise returns an
      [outcome].
    - Methods that read or change the server object, the serial port or the
      module-wide logger are computations in the monad [M], a state and
      exception monad over [world].
    - A handler function registered with [route] is referred to by its name.
    - The modules [umodbus.route], [umodbus.functions], [umodbus.utils] and
      [umodbus.exceptions], and the subclasses of [AbstractSerialServer],
      are collaborators: they appear as type classes, with instances
      modelled from the specification where a property needs them. *)

From Stdlib Require Import String ZArith List Bool Lia.
Import ListNotations.
Local Open Scope string_scope.
Local Open Scope list_scope.
Local Open Scope Z_scope.

(** ** Python values *)

Definition bytes := list Z.

(** The exceptions the server meets.  All of them derive from [Exception];
    [ModbusError] stands for the class and its subclasses, told apart by
    their [error_code]. *)
Inductive exn : Type :=
| ModbusError (error_code : Z)
| CRCError (msg : string)
| TypeError (msg : string)
| KeyError (key : string)
| StructError
| NotImplementedError
| AttributeError (attr : string)
| Fault (msg : string).

Inductive outcome (A : Type) : Type :=
| Return (a : A)
| Raise (e : exn).
Arguments Return {A} a.
Arguments Raise {A} e.

Definition is_ModbusError (e : exn) : bool :=
  match e with ModbusError _ => true | _ => false end.

Definition is_CRCError (e : exn) : bool :=
  match e with CRCError _ => true | _ => false end.

(** [l[start:stop]] with step 1: a negative index counts from the end and
    every index is clamped to the length. *)
Definition slice_index (len i : Z) : Z :=
  Z.max 0 (Z.min len (if i <? 0 then i + len else i)).

Definition slice {A : Type} (start stop : option Z) (l : list A) : list A :=
  let len := Z.of_nat (length l) in
  let lo := match start with None => 0 | Some i => slice_index len i end in
  let hi := match stop with None => len | Some i => slice_index len i end in
  firstn (Z.to_nat (hi - lo)) (skipn (Z.to_nat lo) l).

(** [struct.unpack('>B', buffer)[0]]: the buffer must hold exactly one
    byte. *)
Definition struct_unpack_B (buffer : bytes) : outcome Z :=
  match buffer with
  | [b] => Return b
  | _ => Raise StructError
  end.

(** A dict with string keys, as an association list; [d[key]] raises
    [KeyError] on a missing key. *)
Definition dict := list (string * Z).

Fixpoint dict_get (d : dict) (key : string) : outcome Z :=
  match d with
  | [] => Raise (KeyError key)
  | (k, v) :: d' => if String.eqb k key then Return v else dict_get d' key
  end.

(** ** The route map *)

Module Route.

Definition endpoint := string.

(** Modelled from the spec: the rule class of [umodbus.route], which is
    not part of the sources at hand.  A rule is "a tuple of optional
    filter sets [...] plus an owned handler callable"; [None] is the
    wildcard. *)
Record DataRule : Type := {
  rule_endpoint : endpoint;
  slave_ids : option (list Z);
  function_codes : option (list Z);
  addresses : option (list Z)
}.

(** Modelled from the spec: the class [Map] of [umodbus.route], "an
    ordered sequence of RouteRule, insertion order preserved". *)
Record Map : Type := { rules : list DataRule }.

Definition empty : Map := {| rules := [] |}.

(** Modelled from the spec: [Map.add_rule] of [umodbus.route],
    "appends to the ordered sequence.  No de-duplication". *)
Definition add_rule (m : Map) (f : endpoint)
           (sids fcs addrs : option (list Z)) : Map :=
  {| rules := rules m ++ [ {| rule_endpoint := f; slave_ids := sids;
                              function_codes := fcs;
                              addresses := addrs |} ] |}.

(** Modelled from the spec: one filter of a rule, "a RouteRule's wildcard
    fields match any value; a concrete field matches only listed
    values". *)
Definition matches (values : option (list Z)) (v : Z) : bool :=
  match values with
  | None => true
  | Some vs => existsb (Z.eqb v) vs
  end.

(** Modelled from the spec: a rule matches when its "three filters all
    match". *)
Definition rule_match (r : DataRule) (slave_id function_code address : Z)
  : bool :=
  matches (slave_ids r) slave_id
  && matches (function_codes r) function_code
  && matches (addresses r) address.

(** Modelled from the spec: [Map.match] of [umodbus.route], which
    "scans the sequence in insertion order; returns the handler bound to
    the first rule whose three filters all match [...]; returns NotFound
    if none match". *)
Definition match_ (m : Map) (slave_id function_code address : Z)
  : option endpoint :=
  option_map rule_endpoint
    (find (fun r => rule_match r slave_id function_code address)
          (rules m)).

End Route.

(** ** The server, its port and the logger *)

(** The serial port: the frames still to be read and the frames written. *)
Record port : Type := {
  rx : list bytes;
  tx : list bytes
}.

Inductive level : Type := DEBUG | ERROR | EXCEPTION.

(** One call of the logger: level, format string and the value formatted
    into it. *)
Inductive log_arg : Type :=
| of_exn (e : exn)
| of_bytes (b : bytes).

Record log_record : Type := {
  log_level : level;
  log_format : string;
  log_value : log_arg
}.

(** The attributes of the server instance, and the records handed to the
    logger [umodbus.log]. *)
Record world : Type := {
  serial_port : port;
  route_map : Route.Map;
  _shutdown_request : bool;
  log : list log_record
}.

Definition set_serial_port (w : world) (p : port) : world :=
  {| serial_port := p; route_map := route_map w;
     _shutdown_request := _shutdown_request w; log := log w |}.

Definition set_route_map (w : world) (m : Route.Map) : world :=
  {| serial_port := serial_port w; route_map := m;
     _shutdown_request := _shutdown_request w; log := log w |}.

Definition set_shutdown_request (w : world) (b : bool) : world :=
  {| serial_port := serial_port w; route_map := route_map w;
     _shutdown_request := b; log := log w |}.

Definition add_log (w : world) (r : log_record) : world :=
  {| serial_port := serial_port w; route_map := route_map w;
     _shutdown_request := _shutdown_request w; log := log w ++ [r] |}.

(** ** The monad of server methods *)

Definition M (A : Type) : Type := world -> outcome A * world.

Definition ret {A : Type} (a : A) : M A := fun w => (Return a, w).

Definition raise {A : Type} (e : exn) : M A := fun w => (Raise e, w).

Definition bind {A B : Type} (m : M A) (k : A -> M B) : M B :=
  fun w =>
    match m w with
    | (Return a, w') => k a w'
    | (Raise e, w') => (Raise e, w')
    end.

(** A pure call that may raise. *)
Definition lift {A : Type} (o : outcome A) : M A := fun w => (o, w).

(** [try: body / except ...: handler]: the handler runs in the state the
    body left; it decides by the exception whether to handle or re-raise. *)
Definition try_except {A : Type} (body : M A) (handler : exn -> M A) : M A :=
  fun w =>
    match body w with
    | (Return a, w') => (Return a, w')
    | (Raise e, w') => handler e w'
    end.

Definition gets {A : Type} (f : world -> A) : M A := fun w => (Return (f w), w).

Definition modify (f : world -> world) : M unit := fun w => (Return tt, f w).

Declare Scope py_scope.
Delimit Scope py_scope with py.
Notation "x <- m ;; k" := (bind m (fun x => k))
  (at level 61, m at next level, right associativity) : py_scope.
Notation "m ;; k" := (bind m (fun _ => k))
  (at level 61, right associativity) : py_scope.
Local Open Scope py_scope.

(** The three logger calls of the module. *)
Definition log_error (fmt : string) (e : exn) : M unit :=
  modify (fun w => add_log w {| log_level := ERROR; log_format := fmt;
                               log_value := of_exn e |}).

Definition log_exception (fmt : string) (e : exn) : M unit :=
  modify (fun w => add_log w {| log_level := EXCEPTION; log_format := fmt;
                               log_value := of_exn e |}).

Definition log_debug (fmt : string) (b : bytes) : M unit :=
  modify (fun w => add_log w {| log_level := DEBUG; log_format := fmt;
                               log_value := of_bytes b |}).

(** [serial_port.write(data)]. *)
Definition port_write (data : bytes) : M unit :=
  modify (fun w => set_serial_port w
            {| rx := rx (serial_port w); tx := tx (serial_port w) ++ [data] |}).

(** ** Collaborators *)

(** [umodbus.functions]: the function objects built from a request PDU.
    [create_response_pdu f (Some results)] is the call
    [f.create_response_pdu(results)] and [create_response_pdu f None] is
    the call [f.create_response_pdu()]. *)
Class Functions : Type := {
  function : Type;
  results : Type;
  create_function_from_request_pdu : bytes -> M function;
  execute : function -> Z -> Route.Map -> M results;
  create_response_pdu : function -> option results -> M bytes
}.

(** [umodbus.utils]: the two helpers of the exception path. *)
Class Utils : Type := {
  get_function_code_from_request_pdu : bytes -> outcome Z;
  pack_exception_pdu : Z -> Z -> outcome bytes
}.

(** What a concrete server class supplies: [serve_once], and
    [create_response_adu], which [process] calls. *)
Class SerialServer : Type := {
  serve_once : M unit;
  create_response_adu : dict -> bytes -> M bytes
}.

(** Modelled from the spec: [ServerDeviceFailureError.error_code] of
    [umodbus.exceptions], "ServerDeviceFailure=4". *)
Definition ServerDeviceFailureError_error_code : Z := 4.

(** Modelled from the spec: the error code of [IllegalFunctionError] in
    [umodbus.exceptions], "IllegalFunction=1". *)
Definition IllegalFunctionError_error_code : Z := 1.

(** ** The module [umodbus.server.serial] *)

(** [get_server(server_class, serial_port)]: a fresh instance with the
    port and an empty route map bound to it; [_shutdown_request] is the
    class attribute [False].  The server class is the [SerialServer]
    instance in scope. *)
Definition get_server (serial_port : port) : world :=
  {| serial_port := serial_port;
     route_map := Route.empty;
     _shutdown_request := false;
     log := [] |}.

(** [route(slave_ids, function_codes, addresses)] returns the decorator
    [inner]; an omitted argument is [None]. *)
Definition route (slave_ids function_codes addresses : option (list Z))
  : Route.endpoint -> M Route.endpoint :=
  fun f =>
    modify (fun w =>
      set_route_map w
        (Route.add_rule (route_map w) f slave_ids function_codes addresses));;
    ret f.

Definition get_meta_data (request_adu : bytes) : outcome dict :=
  match struct_unpack_B (slice None (Some 1) request_adu) with
  | Return unit_id => Return [("unit_id", unit_id)]
  | Raise e => Raise e
  end.

Definition get_request_pdu (request_adu : bytes) : bytes :=
  slice (Some 1) (Some (-2)) request_adu.

(** How [serve_forever] ended. *)
Inductive loop_end : Type :=
| Shutdown             (* the loop condition found [_shutdown_request] set *)
| Uncaught (e : exn)   (* an exception left [serve_forever] *)
| Running.             (* still looping when the iteration budget ran out *)

Record run : Type := {
  ending : loop_end;
  iterations : nat;      (* calls of [serve_once] *)
  final : world
}.

Definition next (r : run) : run :=
  {| ending := ending r; iterations := S (iterations r); final := final r |}.

(** [serve_forever]; [fuel] bounds the number of iterations. *)
Fixpoint serve_forever {C : SerialServer} (fuel : nat) (w : world) : run :=
  if _shutdown_request w then
    {| ending := Shutdown; iterations := 0; final := w |}
  else
    match fuel with
    | O => {| ending := Running; iterations := 0; final := w |}
    | S fuel' =>
        match serve_once w with
        | (Return _, w') => next (serve_forever fuel' w')
        | (Raise (CRCError msg), w') =>
            next (serve_forever fuel'
                    (snd (log_error "Can't handle request: {0}"
                                    (CRCError msg) w')))
        | (Raise e, w') =>
            {| ending := Uncaught e; iterations := 1; final := w' |}
        end
    end.

(** The body of the [try] statement of [execute_route]. *)
Definition execute_route_try {F : Functions}
           (meta_data : dict) (request_pdu : bytes) : M bytes :=
  function <- create_function_from_request_pdu request_pdu;;
  unit_id <- lift (dict_get meta_data "unit_id");;
  route_map <- gets route_map;;
  results <- execute function unit_id route_map;;
  try_except
    (create_response_pdu function (Some results))
    (fun e =>
       match e with
       | TypeError _ => create_response_pdu function None
       | _ => raise e
       end).

(** The two [except] clauses of [execute_route], tried in order. *)
Definition execute_route_except {U : Utils} (request_pdu : bytes) (e : exn)
  : M bytes :=
  match e with
  | ModbusError error_code =>
      function_code <- lift (get_function_code_from_request_pdu request_pdu);;
      lift (pack_exception_pdu function_code error_code)
  | _ =>
      log_exception "Could not handle request: {0}." e;;
      function_code <- lift (get_function_code_from_request_pdu request_pdu);;
      lift (pack_exception_pdu function_code
                               ServerDeviceFailureError_error_code)
  end.

Definition execute_route {F : Functions} {U : Utils}
           (meta_data : dict) (request_pdu : bytes) : M bytes :=
  try_except (execute_route_try meta_data request_pdu)
             (execute_route_except request_pdu).

Definition process {C : SerialServer} {F : Functions} {U : Utils}
           (request_adu : bytes) : M bytes :=
  meta_data <- lift (get_meta_data request_adu);;
  let request_pdu := get_request_pdu request_adu in
  response_pdu <- execute_route meta_data request_pdu;;
  response_adu <- create_response_adu meta_data response_pdu;;
  ret response_adu.

(** [respond]; the record keeps the ADU that [hexlify] renders. *)
Definition respond (response_adu : bytes) : M unit :=
  log_debug "--> {0}" response_adu;;
  port_write response_adu.

Definition shutdown : M unit :=
  modify (fun w => set_shutdown_request w true).

(** The rule that [route] registers: the last rule of the map afterwards. *)
Definition registered (slave_ids function_codes addresses : option (list Z))
           (f : Route.endpoint) (w : world) : option Route.DataRule :=
  last (map Some
          (Route.rules
             (route_map (snd (route slave_ids function_codes addresses f w)))))
       None.

(** [AbstractSerialServer] itself: [serve_once] raises
    [NotImplementedError], and the class has no [create_response_adu]. *)
Definition AbstractSerialServer : SerialServer :=
  {| serve_once := raise NotImplementedError;
     create_response_adu := fun _ _ => raise (AttributeError "create_response_adu") |}.

(** ** Collaborators modelled from the specification *)

Module Spec.

(** Modelled from the spec: [get_function_code_from_request_pdu] of
    [umodbus.utils], which is not part of the sources at hand.  By the
    wire format "PDU := FunctionCode(1B) || Data" the function code is
    the first byte; the PDU has at least one byte there, and unpacking
    an empty one fails as in [get_meta_data]. *)
Definition get_function_code_from_request_pdu (pdu : bytes) : outcome Z :=
  struct_unpack_B (slice None (Some 1) pdu).

(** Modelled from the spec: [pack_exception_pdu] of [umodbus.utils],
    "build an exception PDU: [function_code | 0x80, exception_code]". *)
Definition pack_exception_pdu (function_code error_code : Z)
  : outcome bytes :=
  Return [Z.lor function_code 0x80; error_code].

Definition utils : Utils :=
  Build_Utils get_function_code_from_request_pdu pack_exception_pdu.

(** Modelled from the spec: the function codes the dispatcher knows,
    "values 1,2,3,4,5,6,15,16". *)
Definition supported_function_codes : list Z := [1; 2; 3; 4; 5; 6; 15; 16].

(** Modelled from the spec: the function-code check of
    [create_function_from_request_pdu] in [umodbus.functions], which
    "fails with ProtocolError::IllegalFunction when the function code is
    not one of the eight supported values".  What is built for a
    supported code is left to the underlying [Functions]. *)
Definition create_function_from_request_pdu (F : Functions) (pdu : bytes)
  : M (@function F) :=
  match pdu with
  | function_code :: _ =>
      if existsb (Z.eqb function_code) supported_function_codes
      then @create_function_from_request_pdu F pdu
      else raise (ModbusError IllegalFunctionError_error_code)
  | [] => @create_function_from_request_pdu F pdu
  end.

Definition functions (F : Functions) : Functions :=
  Build_Functions (@function F) (@results F)
                  (create_function_from_request_pdu F)
                  (@execute F) (@create_response_pdu F).

End Spec.

(** ** Test doubles *)

Module Double.

(** A function object given by the behaviour of its two methods. *)
Record function_double : Type := {
  on_execute : Z -> Route.Map -> M (list Z);
  on_create_response_pdu : option (list Z) -> M bytes
}.

Definition functions (create : bytes -> M function_double) : Functions :=
  {| function := function_double;
     results := list Z;
     create_function_from_request_pdu := create;
     execute := on_execute;
     create_response_pdu := on_create_response_pdu |}.

(** A server class given by its two methods. *)
Definition server (once : M unit) (adu : dict -> bytes -> M bytes)
  : SerialServer :=
  {| serve_once := once; create_response_adu := adu |}.

(** A write function whose handler fails with an unexpected error. *)
Definition write_faulty : function_double :=
  {| on_execute := fun _ _ => raise (Fault "handler failed");
     on_create_response_pdu := fun args =>
       match args with
       | None => ret [6; 0; 0; 0; 5]
       | Some _ => raise (TypeError "takes 1 positional argument")
       end |}.

(** A write function: its response takes no argument and echoes the
    request. *)
Definition write_echo (request_pdu : bytes) : function_double :=
  {| on_execute := fun _ _ => ret [];
     on_create_response_pdu := fun args =>
       match args with
       | None => ret request_pdu
       | Some _ => raise (TypeError "takes 1 positional argument")
       end |}.

(** A read function whose response construction raises [TypeError] on
    the values its handlers returned; it needs its argument. *)
Definition read_broken : function_double :=
  {| on_execute := fun _ _ => ret [1; 2];
     on_create_response_pdu := fun args =>
       match args with
       | None => raise (TypeError "missing 1 required positional argument")
       | Some _ => raise (TypeError "unsupported operand type")
       end |}.

(** A function whose handlers report an illegal data address. *)
Definition unrouted : function_double :=
  {| on_execute := fun _ _ => raise (ModbusError 2);
     on_create_response_pdu := fun _ => ret [] |}.

(** A server whose every iteration meets a frame with a bad checksum. *)
Definition noisy : SerialServer :=
  server (raise (CRCError "CRC validation failed."))
         (fun _ pdu => ret pdu).

(** A server that answers each pending frame with the frame itself and
    calls [shutdown] once it has answered the frame [[0]]. *)
Definition echo_once : M unit :=
  port <- gets serial_port;;
  match rx port with
  | [] => raise (Fault "timeout")
  | adu :: pending =>
      modify (fun w => set_serial_port w
                {| rx := pending; tx := tx (serial_port w) |});;
      respond adu;;
      match adu with
      | [0] => shutdown
      | _ => ret tt
      end
  end.

Definition echo : SerialServer := server echo_once (fun _ pdu => ret pdu).

(** A port with nothing to read and nothing written, and a fresh server
    on it. *)
Definition idle : port := {| rx := []; tx := [] |}.

Definition fresh : world := get_server idle.

End Double.

(** * Properties *)

(** ** Slices and frames *)

Lemma slice_index_nonneg (len i : Z) :
  0 <= i -> 0 <= len -> slice_index len i = Z.min len i.
Proof.
  intros Hi Hlen. unfold slice_index.
  destruct (i <? 0) eqn:E; lia.
Qed.

Lemma slice_index_neg (len i : Z) :
  i < 0 -> 0 <= len -> slice_index len i = Z.max 0 (i + len).
Proof.
  intros Hi Hlen. unfold slice_index.
  destruct (i <? 0) eqn:E; lia.
Qed.

Lemma slice_head {A : Type} (a : A) (l : list A) :
  slice None (Some 1) (a :: l) = [a].
Proof.
  unfold slice. rewrite slice_index_nonneg by lia.
  cbn [length]. rewrite Nat2Z.inj_succ.
  replace (Z.min (Z.succ (Z.of_nat (length l))) 1 - 0) with 1 by lia.
  reflexivity.
Qed.

Lemma get_request_pdu_firstn (request_adu : bytes) :
  get_request_pdu request_adu
  = firstn (length request_adu - 3) (skipn 1 request_adu).
Proof.
  unfold get_request_pdu, slice.
  rewrite (slice_index_nonneg _ 1) by lia.
  rewrite (slice_index_neg _ (-2)) by lia.
  destruct request_adu as [|unit_id rest]; [reflexivity|].
  replace (Z.to_nat (Z.min (Z.of_nat (length (unit_id :: rest))) 1))
    with 1%nat by (cbn [length]; lia).
  f_equal. cbn [length]. lia.
Qed.

Lemma get_meta_data_cons (unit_id : Z) (rest : bytes) :
  get_meta_data (unit_id :: rest) = Return [("unit_id", unit_id)].
Proof.
  unfold get_meta_data. rewrite slice_head. reflexivity.
Qed.

Lemma get_request_pdu_frame (unit_id c1 c2 : Z) (pdu : bytes) :
  get_request_pdu (unit_id :: pdu ++ [c1; c2]) = pdu.
Proof.
  rewrite get_request_pdu_firstn. cbn [length skipn].
  rewrite length_app. cbn [length].
  replace (S (length pdu + 2) - 3)%nat with (length pdu + 0)%nat by lia.
  rewrite firstn_app_2. cbn [firstn]. apply app_nil_r.
Qed.

(** C4.  A request ADU of at least 4 bytes splits as unit id, PDU and the
    2 checksum bytes: [get_meta_data] gives the first byte as unit id and
    [get_request_pdu] the bytes from index 1 up to the last 2, which are
    left out. *)
Theorem adu_of_four_bytes_splits (request_adu : bytes) :
  (4 <= length request_adu)%nat ->
  exists unit_id checksum,
    request_adu = unit_id :: get_request_pdu request_adu ++ checksum
    /\ length checksum = 2%nat
    /\ get_meta_data request_adu = Return [("unit_id", unit_id)]
    /\ get_request_pdu request_adu
       = firstn (length request_adu - 2 - 1) (skipn 1 request_adu).
Proof.
  intros Hlen.
  destruct request_adu as [|unit_id rest]; [cbn in Hlen; lia|].
  cbn [length] in Hlen.
  exists unit_id, (skipn (length rest - 2) rest).
  rewrite get_request_pdu_firstn. cbn [length skipn].
  replace (S (length rest) - 3)%nat with (length rest - 2)%nat by lia.
  repeat split.
  - now rewrite firstn_skipn.
  - rewrite length_skipn. lia.
  - apply get_meta_data_cons.
  - f_equal. lia.
Qed.

Lemma adu_of_four_bytes_splits_witness :
  exists unit_id checksum,
    [1; 3; 0; 0; 0; 2; 196; 11]
    = unit_id :: get_request_pdu [1; 3; 0; 0; 0; 2; 196; 11] ++ checksum
    /\ length checksum = 2%nat
    /\ get_meta_data [1; 3; 0; 0; 0; 2; 196; 11]
       = Return [("unit_id", unit_id)]
    /\ get_request_pdu [1; 3; 0; 0; 0; 2; 196; 11]
       = firstn (length [1; 3; 0; 0; 0; 2; 196; 11] - 2 - 1)
                (skipn 1 [1; 3; 0; 0; 0; 2; 196; 11]).
Proof.
  apply (adu_of_four_bytes_splits [1; 3; 0; 0; 0; 2; 196; 11]).
  simpl. lia.
Defined.

Example get_request_pdu_read_holding :
  get_request_pdu [1; 3; 0; 0; 0; 2; 196; 11] = [3; 0; 0; 0; 2].
Proof. reflexivity. Qed.

(** C3, as the specification states it, fails: a 3-byte frame is decoded
    to unit id 1 and the empty PDU, and nothing is raised. *)
Lemma short_frame_is_decoded :
  get_meta_data [1; 3; 0] = Return [("unit_id", 1)]
  /\ get_request_pdu [1; 3; 0] = [].
Proof. split; reflexivity. Qed.

(** C3, amended.  The module has no length check and no error for a
    frame that is too short.  A frame of 1 to 3 bytes is decoded without
    an error: [get_meta_data] gives its first byte as unit id and
    [get_request_pdu] gives the empty PDU.  Only the empty frame makes
    decoding fail, in [get_meta_data], with the unpacking error; its PDU
    is empty as well. *)
Theorem short_frame_decoding (request_adu : bytes) :
  (length request_adu < 4)%nat ->
  get_request_pdu request_adu = []
  /\ match request_adu with
     | [] => get_meta_data request_adu = Raise StructError
     | unit_id :: _ =>
         get_meta_data request_adu = Return [("unit_id", unit_id)]
     end.
Proof.
  intros Hlen. split.
  - rewrite get_request_pdu_firstn.
    replace (length request_adu - 3)%nat with 0%nat by lia. reflexivity.
  - destruct request_adu as [|unit_id rest].
    + reflexivity.
    + apply get_meta_data_cons.
Qed.

Lemma short_frame_decoding_witness :
  get_request_pdu [1; 3; 0] = []
  /\ get_meta_data [1; 3; 0] = Return [("unit_id", 1)].
Proof.
  apply (short_frame_decoding [1; 3; 0]). simpl. lia.
Defined.

(** ** Route registration *)

Lemma route_eq (slave_ids function_codes addresses : option (list Z))
      (f : Route.endpoint) (w : world) :
  route slave_ids function_codes addresses f w
  = (Return f,
     set_route_map w
       (Route.add_rule (route_map w) f slave_ids function_codes addresses)).
Proof. reflexivity. Qed.

Lemma matches_In (vs : list Z) (v : Z) :
  Route.matches (Some vs) v = true <-> In v vs.
Proof.
  cbn [Route.matches]. rewrite existsb_exists. split.
  - intros [x [Hin Heq]]. apply Z.eqb_eq in Heq. now subst.
  - intros Hin. exists v. split; [exact Hin | apply Z.eqb_refl].
Qed.

Lemma registered_eq (slave_ids function_codes addresses : option (list Z))
      (f : Route.endpoint) (w : world) :
  registered slave_ids function_codes addresses f w
  = Some {| Route.rule_endpoint := f;
            Route.slave_ids := slave_ids;
            Route.function_codes := function_codes;
            Route.addresses := addresses |}.
Proof.
  unfold registered. rewrite route_eq. cbn.
  rewrite map_app. cbn. apply last_last.
Qed.

(** C8.  The rule registered through [route] binds the handler, and a
    filter argument that is omitted ([None]) matches every value of its
    field, whatever the other two filters are: the rule then matches a
    triple exactly when the filters that were given match. *)
Theorem route_omitted_filter_matches_any
        (f : Route.endpoint) (w : world) (given given' : option (list Z)) :
  (exists r,
      registered None given given' f w = Some r
      /\ Route.rule_endpoint r = f
      /\ (forall v, Route.matches (Route.slave_ids r) v = true)
      /\ forall slave_id function_code address,
          Route.rule_match r slave_id function_code address
          = Route.matches given function_code
            && Route.matches given' address)
  /\ (exists r,
      registered given None given' f w = Some r
      /\ Route.rule_endpoint r = f
      /\ (forall v, Route.matches (Route.function_codes r) v = true)
      /\ forall slave_id function_code address,
          Route.rule_match r slave_id function_code address
          = Route.matches given slave_id && Route.matches given' address)
  /\ (exists r,
      registered given given' None f w = Some r
      /\ Route.rule_endpoint r = f
      /\ (forall v, Route.matches (Route.addresses r) v = true)
      /\ forall slave_id function_code address,
          Route.rule_match r slave_id function_code address
          = Route.matches given slave_id
            && Route.matches given' function_code)
  /\ (exists r,
      registered None None None f w = Some r
      /\ forall slave_id function_code address,
          Route.rule_match r slave_id function_code address = true).
Proof.
  repeat split; eexists; (split; [apply registered_eq|]);
    unfold Route.rule_match; cbn; repeat split; intros;
    rewrite ?andb_true_r; reflexivity.
Qed.

Example route_example_rule :
  let w := snd (route (Some [1]) (Some [1; 3]) None "read_data_store"
                      (get_server {| rx := []; tx := [] |})) in
  Route.match_ (route_map w) 1 3 40000 = Some "read_data_store"
  /\ Route.match_ (route_map w) 2 3 40000 = None.
Proof. split; reflexivity. Qed.

(** C10.  The decorator returns the handler it was given and raises
    nothing; the route map afterwards is the old one with exactly one
    rule appended, binding that handler to the three filters; the serial
    port, the shutdown flag and the log are as before. *)
Theorem route_returns_f_and_appends_rule
        (slave_ids function_codes addresses : option (list Z))
        (f : Route.endpoint) (w : world) :
  let result := route slave_ids function_codes addresses f w in
  fst result = Return f
  /\ Route.rules (route_map (snd result))
     = Route.rules (route_map w)
       ++ [ {| Route.rule_endpoint := f;
               Route.slave_ids := slave_ids;
               Route.function_codes := function_codes;
               Route.addresses := addresses |} ]
  /\ serial_port (snd result) = serial_port w
  /\ _shutdown_request (snd result) = _shutdown_request w
  /\ log (snd result) = log w.
Proof.
  cbv zeta. rewrite route_eq. repeat split.
Qed.

(** ** [execute_route] *)

Section ExecuteRoute.

Context {F : Functions} {U : Utils}.
Variables (meta_data : dict) (request_pdu : bytes).

Lemma execute_route_return (w w' : world) (response_pdu : bytes) :
  execute_route_try meta_data request_pdu w = (Return response_pdu, w') ->
  execute_route meta_data request_pdu w = (Return response_pdu, w').
Proof.
  intros Htry. unfold execute_route, try_except. now rewrite Htry.
Qed.

Lemma execute_route_raise (w w' : world) (e : exn) :
  execute_route_try meta_data request_pdu w = (Raise e, w') ->
  execute_route meta_data request_pdu w
  = execute_route_except request_pdu e w'.
Proof.
  intros Htry. unfold execute_route, try_except. now rewrite Htry.
Qed.

Lemma execute_route_except_modbus (w : world) (error_code fc : Z)
      (pdu : bytes) :
  get_function_code_from_request_pdu request_pdu = Return fc ->
  pack_exception_pdu fc error_code = Return pdu ->
  execute_route_except request_pdu (ModbusError error_code) w
  = (Return pdu, w).
Proof.
  intros Hfc Hpack. cbn [execute_route_except]. unfold bind, lift.
  now rewrite Hfc, Hpack.
Qed.

Lemma execute_route_except_other (w : world) (e : exn) (fc : Z)
      (pdu : bytes) :
  is_ModbusError e = false ->
  get_function_code_from_request_pdu request_pdu = Return fc ->
  pack_exception_pdu fc ServerDeviceFailureError_error_code = Return pdu ->
  execute_route_except request_pdu e w
  = (Return pdu,
     add_log w {| log_level := EXCEPTION;
                  log_format := "Could not handle request: {0}.";
                  log_value := of_exn e |}).
Proof.
  intros He Hfc Hpack.
  destruct e; try discriminate He;
    cbn [execute_route_except]; unfold bind, lift, log_exception, modify;
    now rewrite Hfc, Hpack.
Qed.

Section Dispatched.

(** The request was decoded to [fn] and the unit id was found. *)
Variables (w w1 : world) (fn : function) (unit_id : Z).
Hypothesis Hcreate :
  create_function_from_request_pdu request_pdu w = (Return fn, w1).
Hypothesis Hunit : dict_get meta_data "unit_id" = Return unit_id.

Lemma execute_route_try_execute_raises (e : exn) (w2 : world) :
  execute fn unit_id (route_map w1) w1 = (Raise e, w2) ->
  execute_route_try meta_data request_pdu w = (Raise e, w2).
Proof.
  intros Hexec. unfold execute_route_try, bind, lift, gets.
  rewrite Hcreate, Hunit. now rewrite Hexec.
Qed.

Lemma execute_route_try_executed (res : results) (w2 : world) :
  execute fn unit_id (route_map w1) w1 = (Return res, w2) ->
  execute_route_try meta_data request_pdu w
  = try_except
      (create_response_pdu fn (Some res))
      (fun e =>
         match e with
         | TypeError _ => create_response_pdu fn None
         | _ => raise e
         end) w2.
Proof.
  intros Hexec. unfold execute_route_try, bind, lift, gets.
  rewrite Hcreate, Hunit. now rewrite Hexec.
Qed.

End Dispatched.

End ExecuteRoute.

(** C2.  When the function built from the request PDU is executed and
    raises an exception that is not a [ModbusError], [execute_route]
    raises nothing: it logs the exception once and returns the exception
    PDU packed from the request's function code and the error code of
    [ServerDeviceFailureError]. *)
Theorem execute_route_contains_handler_fault
        (F : Functions) (U : Utils) (meta_data : dict) (request_pdu : bytes)
        (w w1 w2 : world) (fn : function) (unit_id : Z) (e : exn)
        (function_code : Z) (exception_pdu : bytes) :
  create_function_from_request_pdu request_pdu w = (Return fn, w1) ->
  dict_get meta_data "unit_id" = Return unit_id ->
  execute fn unit_id (route_map w1) w1 = (Raise e, w2) ->
  is_ModbusError e = false ->
  get_function_code_from_request_pdu request_pdu = Return function_code ->
  pack_exception_pdu function_code ServerDeviceFailureError_error_code
  = Return exception_pdu ->
  execute_route meta_data request_pdu w
  = (Return exception_pdu,
     add_log w2 {| log_level := EXCEPTION;
                   log_format := "Could not handle request: {0}.";
                   log_value := of_exn e |}).
Proof.
  intros Hcreate Hunit Hexec He Hfc Hpack.
  rewrite (execute_route_raise _ _ w w2 e).
  - now apply execute_route_except_other with (fc := function_code).
  - now apply execute_route_try_execute_raises with (w1 := w1) (fn := fn)
                                                   (unit_id := unit_id).
Qed.

Lemma execute_route_contains_handler_fault_witness :
  execute_route (F := Double.functions (fun _ => ret Double.write_faulty))
                (U := Spec.utils) [("unit_id", 1)] [6; 0; 0; 0; 5]
                Double.fresh
  = (Return [Z.lor 6 0x80; 4],
     add_log Double.fresh
             {| log_level := EXCEPTION;
                log_format := "Could not handle request: {0}.";
                log_value := of_exn (Fault "handler failed") |}).
Proof.
  apply (execute_route_contains_handler_fault
           (Double.functions (fun _ => ret Double.write_faulty)) Spec.utils
           [("unit_id", 1)] [6; 0; 0; 0; 5]
           Double.fresh Double.fresh Double.fresh
           Double.write_faulty 1 (Fault "handler failed") 6);
    reflexivity.
Defined.

(** C5.  With the helpers of [umodbus.utils] as the specification gives
    them: when the processing of a request PDU raises a [ModbusError],
    [execute_route] returns the two bytes
    [function_code | 0x80, error_code], the function code being the first
    byte of the request PDU, and logs nothing.  With the function-code
    check of the specification, a request with function code 99 is
    answered by [99 | 0x80, 1]. *)
Theorem execute_route_modbus_error
        (F : Functions) (meta_data : dict) (function_code : Z) (data : bytes)
        (w : world) :
  (forall error_code w',
      execute_route_try meta_data (function_code :: data) w
      = (Raise (ModbusError error_code), w') ->
      execute_route (U := Spec.utils) meta_data (function_code :: data) w
      = (Return [Z.lor function_code 0x80; error_code], w'))
  /\ execute_route (F := Spec.functions F) (U := Spec.utils)
                   meta_data (99 :: data) w
     = (Return [Z.lor 99 0x80; 1], w).
Proof.
  assert (Hfc : forall fc,
             @get_function_code_from_request_pdu Spec.utils (fc :: data)
             = Return fc).
  { intros fc. cbn. unfold Spec.get_function_code_from_request_pdu.
    now rewrite slice_head. }
  split.
  - intros error_code w' Htry.
    rewrite (execute_route_raise _ _ w w' _ Htry).
    now apply execute_route_except_modbus with (fc := function_code).
  - rewrite (execute_route_raise _ _ w w (ModbusError 1)).
    + now apply execute_route_except_modbus with (fc := 99).
    + reflexivity.
Qed.

Lemma execute_route_modbus_error_witness :
  execute_route (F := Double.functions (fun _ => ret Double.unrouted))
                (U := Spec.utils) [("unit_id", 1)] [3; 0; 0; 0; 2]
                Double.fresh
  = (Return [131; 2], Double.fresh).
Proof.
  apply (proj1 (execute_route_modbus_error
                  (Double.functions (fun _ => ret Double.unrouted))
                  [("unit_id", 1)] 3 [0; 0; 0; 2] Double.fresh)).
  reflexivity.
Defined.

(** C9, as stated, fails: when the response construction of a read
    function raises [TypeError] and the call without arguments raises
    [TypeError] as well (the argument is missing), the request is answered
    by the [ServerDeviceFailureError] exception PDU and the error is
    logged. *)
Lemma type_error_reported_as_server_device_failure :
  execute_route (F := Double.functions (fun _ => ret Double.read_broken))
                (U := Spec.utils) [("unit_id", 1)] [3; 0; 0; 0; 2]
                Double.fresh
  = (Return [Z.lor 3 0x80; ServerDeviceFailureError_error_code],
     add_log Double.fresh
       {| log_level := EXCEPTION;
          log_format := "Could not handle request: {0}.";
          log_value :=
            of_exn (TypeError "missing 1 required positional argument") |}).
Proof. reflexivity. Qed.

(** C9, amended.  Once the function has been executed, [execute_route]
    calls [create_response_pdu] with the results.  If that call returns,
    its PDU is the answer; if it raises anything but [TypeError], the
    [except] clauses of [execute_route] handle that exception; in both
    cases there is no second call.  If it raises [TypeError], that error
    is dropped and [create_response_pdu] is called without arguments: the
    PDU it returns is the answer, and an exception it raises goes to the
    [except] clauses, so that a second [TypeError] is logged and answered
    as [ServerDeviceFailureError]. *)
Theorem create_response_pdu_retry
        (F : Functions) (U : Utils) (meta_data : dict) (request_pdu : bytes)
        (w w1 w2 w3 : world) (fn : function) (unit_id : Z) (res : results)
        (first : outcome bytes) :
  create_function_from_request_pdu request_pdu w = (Return fn, w1) ->
  dict_get meta_data "unit_id" = Return unit_id ->
  execute fn unit_id (route_map w1) w1 = (Return res, w2) ->
  create_response_pdu fn (Some res) w2 = (first, w3) ->
  match first with
  | Return response_pdu =>
      execute_route meta_data request_pdu w = (Return response_pdu, w3)
  | Raise (TypeError _) =>
      match create_response_pdu fn None w3 with
      | (Return response_pdu, w4) =>
          execute_route meta_data request_pdu w = (Return response_pdu, w4)
      | (Raise e, w4) =>
          execute_route meta_data request_pdu w
          = execute_route_except request_pdu e w4
      end
  | Raise e =>
      execute_route meta_data request_pdu w
      = execute_route_except request_pdu e w3
  end.
Proof.
  intros Hcreate Hunit Hexec Hfirst.
  pose proof (execute_route_try_executed
                meta_data request_pdu w w1 fn unit_id Hcreate Hunit res w2
                Hexec) as Htry.
  unfold try_except in Htry. rewrite Hfirst in Htry.
  destruct first as [response_pdu | e].
  - now apply execute_route_return.
  - destruct e;
      try (apply execute_route_raise; exact Htry).
    destruct (create_response_pdu fn None w3) as [[response_pdu | e] w4].
    + now apply execute_route_return.
    + now apply execute_route_raise.
Qed.

Lemma create_response_pdu_retry_witness :
  execute_route
    (F := Double.functions (fun pdu => ret (Double.write_echo pdu)))
    (U := Spec.utils) [("unit_id", 1)] [6; 0; 0; 0; 5] Double.fresh
  = (Return [6; 0; 0; 0; 5], Double.fresh).
Proof.
  apply (create_response_pdu_retry
           (Double.functions (fun pdu => ret (Double.write_echo pdu)))
           Spec.utils [("unit_id", 1)] [6; 0; 0; 0; 5]
           Double.fresh Double.fresh Double.fresh Double.fresh
           (Double.write_echo [6; 0; 0; 0; 5]) 1 []
           (Raise (TypeError "takes 1 positional argument")));
    reflexivity.
Defined.

(** ** The serve loop *)

Lemma serve_forever_shutdown (C : SerialServer) (fuel : nat) (w : world) :
  _shutdown_request w = true ->
  serve_forever fuel w = {| ending := Shutdown; iterations := 0; final := w |}.
Proof.
  intros Hflag. destruct fuel; cbn [serve_forever]; now rewrite Hflag.
Qed.

Lemma serve_forever_returned (C : SerialServer) (fuel : nat) (w w' : world)
      (u : unit) :
  _shutdown_request w = false ->
  serve_once w = (Return u, w') ->
  serve_forever (S fuel) w = next (serve_forever fuel w').
Proof.
  intros Hflag Honce. cbn [serve_forever]. now rewrite Hflag, Honce.
Qed.

Lemma serve_forever_crc (C : SerialServer) (fuel : nat) (w w' : world)
      (msg : string) :
  _shutdown_request w = false ->
  serve_once w = (Raise (CRCError msg), w') ->
  serve_forever (S fuel) w
  = next (serve_forever fuel
            (add_log w' {| log_level := ERROR;
                           log_format := "Can't handle request: {0}";
                           log_value := of_exn (CRCError msg) |})).
Proof.
  intros Hflag Honce. cbn [serve_forever]. now rewrite Hflag, Honce.
Qed.

Lemma serve_forever_uncaught (C : SerialServer) (fuel : nat) (w w' : world)
      (e : exn) :
  _shutdown_request w = false ->
  serve_once w = (Raise e, w') ->
  is_CRCError e = false ->
  serve_forever (S fuel) w
  = {| ending := Uncaught e; iterations := 1; final := w' |}.
Proof.
  intros Hflag Honce He. cbn [serve_forever]. rewrite Hflag, Honce.
  destruct e; try reflexivity. discriminate He.
Qed.

(** The three ways an iteration can go. *)
Lemma serve_once_cases (C : SerialServer) (w : world) :
  (exists u w', serve_once w = (Return u, w'))
  \/ (exists msg w', serve_once w = (Raise (CRCError msg), w'))
  \/ (exists e w', serve_once w = (Raise e, w') /\ is_CRCError e = false).
Proof.
  destruct (serve_once w) as [[u | e] w'].
  - left. now exists u, w'.
  - destruct e; try (right; right; eexists; eexists; split;
                     [reflexivity | reflexivity]).
    right; left. now exists msg, w'.
Qed.

Lemma serve_forever_ending (C : SerialServer) (fuel : nat) :
  forall w,
    match ending (serve_forever fuel w) with
    | Shutdown => _shutdown_request (final (serve_forever fuel w)) = true
    | Uncaught e => is_CRCError e = false
    | Running =>
        iterations (serve_forever fuel w) = fuel
        /\ _shutdown_request (final (serve_forever fuel w)) = false
    end.
Proof.
  induction fuel as [|fuel IH]; intros w.
  - cbn [serve_forever]. destruct (_shutdown_request w) eqn:Hflag; cbn; auto.
  - destruct (_shutdown_request w) eqn:Hflag.
    + rewrite serve_forever_shutdown by exact Hflag. exact Hflag.
    + destruct (serve_once_cases C w)
        as [[u [w' Honce]] | [[msg [w' Honce]] | [e [w' [Honce He]]]]].
      * rewrite (serve_forever_returned _ _ _ _ _ Hflag Honce).
        cbn [next ending final iterations].
        specialize (IH w'). destruct (ending (serve_forever fuel w'));
          intuition congruence.
      * rewrite (serve_forever_crc _ _ _ _ _ Hflag Honce).
        cbn [next ending final iterations].
        match goal with |- context [serve_forever fuel ?x] =>
          specialize (IH x); destruct (ending (serve_forever fuel x)) end;
          intuition congruence.
      * rewrite (serve_forever_uncaught _ _ _ _ _ Hflag Honce He).
        exact He.
Qed.

(** C1, as stated, fails: on a server whose [serve_once] raises
    [NotImplementedError], as that of [AbstractSerialServer] does,
    [serve_forever] is left by that exception in its first iteration,
    with the shutdown flag still unset. *)
Lemma serve_forever_left_by_exception :
  serve_forever (C := AbstractSerialServer) 1 Double.fresh
  = {| ending := Uncaught NotImplementedError;
       iterations := 1;
       final := Double.fresh |}
  /\ _shutdown_request Double.fresh = false.
Proof. split; reflexivity. Qed.

(** C1, amended.  [serve_forever] returns only when the shutdown flag is
    set, and a [CRCError] raised in an iteration never ends it; but an
    exception of any other class raised by [serve_once] is not caught and
    leaves [serve_forever] in that iteration. *)
Theorem serve_forever_exit_paths (C : SerialServer) (fuel : nat) (w : world) :
  match ending (serve_forever fuel w) with
  | Shutdown => _shutdown_request (final (serve_forever fuel w)) = true
  | Uncaught e => is_CRCError e = false
  | Running => iterations (serve_forever fuel w) = fuel
  end
  /\ forall e w',
      _shutdown_request w = false ->
      serve_once w = (Raise e, w') ->
      is_CRCError e = false ->
      serve_forever (S fuel) w
      = {| ending := Uncaught e; iterations := 1; final := w' |}.
Proof.
  split.
  - pose proof (serve_forever_ending C fuel w) as H.
    destruct (ending (serve_forever fuel w)); intuition.
  - intros e w'. apply serve_forever_uncaught.
Qed.

Lemma serve_forever_exit_paths_witness :
  serve_forever (C := AbstractSerialServer) 3 Double.fresh
  = {| ending := Uncaught NotImplementedError;
       iterations := 1;
       final := Double.fresh |}.
Proof.
  apply (proj2 (serve_forever_exit_paths AbstractSerialServer 2 Double.fresh)
               NotImplementedError Double.fresh);
    reflexivity.
Defined.

(** C6.  Take an iteration, started with the flag unset, in which
    [serve_once] raises [CRCError] and leaves the state [w'].  With a
    budget of one iteration the run of [serve_forever] is then known in
    full: one call of [serve_once], and a final state that is [w'] with
    one error record for that [CRCError] appended to the log; the
    exception does not leave the loop.  The loop writes nothing: the
    serial port at the end is the one [serve_once] left, so that nothing
    has been written in the iteration when [serve_once] wrote nothing
    before it raised.  The loop then goes on from that state: with a
    larger budget the run is the one from that state with one iteration
    more, and unless the flag was set meanwhile [serve_once] is called
    again. *)
Theorem serve_forever_crc_error
        (C : SerialServer) (w w' : world) (msg : string) :
  _shutdown_request w = false ->
  serve_once w = (Raise (CRCError msg), w') ->
  serve_forever 1 w
  = {| ending := if _shutdown_request w' then Shutdown else Running;
       iterations := 1;
       final := {| serial_port := serial_port w';
                   route_map := route_map w';
                   _shutdown_request := _shutdown_request w';
                   log := log w'
                          ++ [ {| log_level := ERROR;
                                  log_format := "Can't handle request: {0}";
                                  log_value := of_exn (CRCError msg) |} ] |} |}
  /\ (tx (serial_port w') = tx (serial_port w) ->
      tx (serial_port (final (serve_forever 1 w))) = tx (serial_port w))
  /\ (forall fuel,
         ending (serve_forever (S fuel) w)
         = ending (serve_forever fuel (final (serve_forever 1 w)))
         /\ final (serve_forever (S fuel) w)
            = final (serve_forever fuel (final (serve_forever 1 w)))
         /\ iterations (serve_forever (S fuel) w)
            = S (iterations
                   (serve_forever fuel (final (serve_forever 1 w)))))
  /\ (_shutdown_request w' = false ->
      forall fuel, (2 <= iterations (serve_forever (S (S fuel)) w))%nat).
Proof.
  intros Hflag Honce.
  assert (Hone : serve_forever 1 w
                 = {| ending := if _shutdown_request w'
                                then Shutdown else Running;
                      iterations := 1;
                      final := add_log w'
                                 {| log_level := ERROR;
                                    log_format := "Can't handle request: {0}";
                                    log_value := of_exn (CRCError msg) |} |}).
  { rewrite (serve_forever_crc _ _ _ _ _ Hflag Honce).
    cbn [serve_forever add_log _shutdown_request].
    now destruct (_shutdown_request w'). }
  split; [exact Hone|]. rewrite Hone. cbn [final].
  split; [intros Hquiet; exact Hquiet|].
  split.
  - intros fuel. rewrite (serve_forever_crc _ _ _ _ _ Hflag Honce).
    repeat split.
  - intros Hflag' fuel.
    rewrite (serve_forever_crc _ _ _ _ _ Hflag Honce).
    cbn [next iterations].
    match goal with |- context [serve_forever (S fuel) ?x] =>
      assert (Hx : _shutdown_request x = false) by exact Hflag';
      destruct (serve_once_cases C x)
        as [[u [w2 Hs]] | [[msg2 [w2 Hs]] | [e [w2 [Hs He]]]]]
    end.
    + rewrite (serve_forever_returned _ _ _ _ _ Hx Hs).
      cbn [next iterations]. lia.
    + rewrite (serve_forever_crc _ _ _ _ _ Hx Hs).
      cbn [next iterations]. lia.
    + rewrite (serve_forever_uncaught _ _ _ _ _ Hx Hs He).
      cbn [iterations]. lia.
Qed.

Lemma serve_forever_crc_error_witness :
  serve_forever (C := Double.noisy) 1 Double.fresh
  = {| ending := Running;
       iterations := 1;
       final := {| serial_port := Double.idle;
                   route_map := Route.empty;
                   _shutdown_request := false;
                   log := [ {| log_level := ERROR;
                               log_format := "Can't handle request: {0}";
                               log_value :=
                                 of_exn (CRCError "CRC validation failed.")
                            |} ] |} |}.
Proof.
  apply (serve_forever_crc_error Double.noisy Double.fresh Double.fresh
                                 "CRC validation failed.");
    reflexivity.
Defined.

Example noisy_line_writes_nothing :
  let r := serve_forever (C := Double.noisy) 5 Double.fresh in
  ending r = Running
  /\ iterations r = 5%nat
  /\ tx (serial_port (final r)) = []
  /\ length (log (final r)) = 5%nat.
Proof. repeat split. Qed.

(** After [k] completed iterations with the loop still going, a larger
    budget continues from the state reached. *)
Lemma serve_forever_continues (C : SerialServer) (k : nat) :
  forall w wk,
    serve_forever k w = {| ending := Running; iterations := k; final := wk |} ->
    _shutdown_request wk = false
    /\ forall m,
        ending (serve_forever (k + m) w) = ending (serve_forever m wk)
        /\ final (serve_forever (k + m) w) = final (serve_forever m wk)
        /\ iterations (serve_forever (k + m) w)
           = (k + iterations (serve_forever m wk))%nat.
Proof.
  induction k as [|k IH]; intros w wk Hrun.
  - cbn [serve_forever] in Hrun.
    destruct (_shutdown_request w) eqn:Hflag; [discriminate Hrun|].
    injection Hrun as <-. split; [exact Hflag|]. intros m. now cbn.
  - destruct (_shutdown_request w) eqn:Hflag.
    { rewrite serve_forever_shutdown in Hrun by exact Hflag.
      discriminate Hrun. }
    assert (Hnext : forall w1,
               next (serve_forever k w1)
               = {| ending := Running; iterations := S k; final := wk |} ->
               serve_forever k w1
               = {| ending := Running; iterations := k; final := wk |}).
    { intros w1. destruct (serve_forever k w1) as [en it fi].
      unfold next. cbn. intros H. injection H as -> -> ->. reflexivity. }
    destruct (serve_once_cases C w)
      as [[u [w' Honce]] | [[msg [w' Honce]] | [e [w' [Honce He]]]]].
    + rewrite (serve_forever_returned _ _ _ _ _ Hflag Honce) in Hrun.
      apply Hnext, IH in Hrun. destruct Hrun as [Hwk Hcont].
      split; [exact Hwk|]. intros m. cbn [Nat.add].
      rewrite (serve_forever_returned _ _ _ _ _ Hflag Honce).
      cbn [next ending final iterations].
      destruct (Hcont m) as [He [Hf Hi]]. now rewrite He, Hf, Hi.
    + rewrite (serve_forever_crc _ _ _ _ _ Hflag Honce) in Hrun.
      apply Hnext, IH in Hrun. destruct Hrun as [Hwk Hcont].
      split; [exact Hwk|]. intros m. cbn [Nat.add].
      rewrite (serve_forever_crc _ _ _ _ _ Hflag Honce).
      cbn [next ending final iterations].
      destruct (Hcont m) as [He [Hf Hi]]. now rewrite He, Hf, Hi.
    + rewrite (serve_forever_uncaught _ _ _ _ _ Hflag Honce He) in Hrun.
      discriminate Hrun.
Qed.

(** C7.  Let the loop have completed [k] iterations and still be going,
    and let [shutdown] be called during the next iteration, so that the
    flag is set in the state [w'] that this iteration leaves.  Then, with
    any larger budget, exactly [k + 1] iterations run: the iteration is
    completed, what it wrote to the serial port is there at the end, and
    the loop then ends at its condition (or by the exception of that
    iteration, if it raised one that is not caught); no further iteration
    starts. *)
Theorem shutdown_ends_loop_at_next_boundary
        (C : SerialServer) (k : nat) (w wk w' : world) (o : outcome unit) :
  serve_forever k w = {| ending := Running; iterations := k; final := wk |} ->
  serve_once wk = (o, w') ->
  _shutdown_request w' = true ->
  forall fuel, (k < fuel)%nat ->
    iterations (serve_forever fuel w) = S k
    /\ serial_port (final (serve_forever fuel w)) = serial_port w'
    /\ _shutdown_request (final (serve_forever fuel w)) = true
    /\ match o with
       | Return _ =>
           ending (serve_forever fuel w) = Shutdown
           /\ final (serve_forever fuel w) = w'
       | Raise (CRCError msg) =>
           ending (serve_forever fuel w) = Shutdown
           /\ final (serve_forever fuel w)
              = add_log w' {| log_level := ERROR;
                              log_format := "Can't handle request: {0}";
                              log_value := of_exn (CRCError msg) |}
       | Raise e =>
           ending (serve_forever fuel w) = Uncaught e
           /\ final (serve_forever fuel w) = w'
       end.
Proof.
  intros Hrun Honce Hset fuel Hfuel.
  destruct (serve_forever_continues C k w wk Hrun) as [Hwk Hcont].
  replace fuel with (k + S (fuel - S k))%nat by lia.
  destruct (Hcont (S (fuel - S k))) as [He [Hf Hi]].
  rewrite He, Hf, Hi. clear He Hf Hi Hcont.
  destruct o as [u | e].
  - rewrite (serve_forever_returned _ _ _ _ _ Hwk Honce).
    rewrite serve_forever_shutdown by exact Hset.
    cbn. repeat split; try assumption. lia.
  - destruct (is_CRCError e) eqn:Hcrc.
    + destruct e; try discriminate Hcrc.
      rewrite (serve_forever_crc _ _ _ _ _ Hwk Honce).
      rewrite serve_forever_shutdown by exact Hset.
      cbn. repeat split; try assumption. lia.
    + rewrite (serve_forever_uncaught _ _ _ _ _ Hwk Honce Hcrc).
      cbn. destruct e; try discriminate Hcrc;
        repeat split; try assumption; lia.
Qed.

Lemma shutdown_ends_loop_at_next_boundary_witness :
  let w := get_server {| rx := [[1; 2]; [0]; [7]]; tx := [] |} in
  iterations (serve_forever (C := Double.echo) 5 w) = 2%nat
  /\ serial_port (final (serve_forever (C := Double.echo) 5 w))
     = {| rx := [[7]]; tx := [[1; 2]; [0]] |}
  /\ _shutdown_request (final (serve_forever (C := Double.echo) 5 w)) = true
  /\ ending (serve_forever (C := Double.echo) 5 w) = Shutdown
  /\ final (serve_forever (C := Double.echo) 5 w)
     = snd (Double.echo_once (final (serve_forever (C := Double.echo) 1 w))).
Proof.
  cbv zeta.
  apply (shutdown_ends_loop_at_next_boundary
           Double.echo 1
           (get_server {| rx := [[1; 2]; [0]; [7]]; tx := [] |})
           (final (serve_forever (C := Double.echo) 1
                     (get_server {| rx := [[1; 2]; [0]; [7]]; tx := [] |})))
           (snd (Double.echo_once
                   (final (serve_forever (C := Double.echo) 1
                             (get_server
                                {| rx := [[1; 2]; [0]; [7]]; tx := [] |})))))
           (Return tt) eq_refl eq_refl eq_refl 5%nat).
  lia.
Defined.

(** * Further properties of the module *)

(** ** Frames *)

(** X1.  Decoding undoes framing: a frame made of a unit id, a PDU (which
    may be empty) and any two trailing bytes is split by [get_meta_data]
    and [get_request_pdu] into that unit id and that PDU. *)
Theorem frame_decodes_to_its_parts (unit_id c1 c2 : Z) (pdu : bytes) :
  get_meta_data (unit_id :: pdu ++ [c1; c2]) = Return [("unit_id", unit_id)]
  /\ get_request_pdu (unit_id :: pdu ++ [c1; c2]) = pdu.
Proof.
  split; [apply get_meta_data_cons | apply get_request_pdu_frame].
Qed.

(** X2.  [get_request_pdu] never fails, and the PDU it returns is exactly
    3 bytes shorter than the ADU, or empty when the ADU has at most 3
    bytes. *)
Theorem get_request_pdu_length (request_adu : bytes) :
  length (get_request_pdu request_adu) = (length request_adu - 3)%nat.
Proof.
  rewrite get_request_pdu_firstn, length_firstn, length_skipn. lia.
Qed.

(** X3.  The dict that [get_meta_data] returns holds the key ['unit_id']
    and no other: the unit id is the first byte of the ADU, and looking up
    any other key raises [KeyError]. *)
Theorem meta_data_has_only_unit_id (request_adu : bytes) (meta_data : dict) :
  get_meta_data request_adu = Return meta_data ->
  exists unit_id,
    hd_error request_adu = Some unit_id
    /\ dict_get meta_data "unit_id" = Return unit_id
    /\ forall key,
        key <> "unit_id" -> dict_get meta_data key = Raise (KeyError key).
Proof.
  intros Hmeta. destruct request_adu as [|unit_id rest].
  - discriminate Hmeta.
  - rewrite get_meta_data_cons in Hmeta. injection Hmeta as <-.
    exists unit_id. repeat split.
    intros key Hkey. cbn [dict_get].
    destruct (String.eqb "unit_id" key) eqn:E; [|reflexivity].
    apply String.eqb_eq in E. now subst.
Qed.

Lemma meta_data_has_only_unit_id_witness :
  exists unit_id,
    hd_error [17; 3; 0; 0; 0; 2; 196; 11] = Some unit_id
    /\ dict_get [("unit_id", 17)] "unit_id" = Return unit_id
    /\ forall key,
        key <> "unit_id"
        -> dict_get [("unit_id", 17)] key = Raise (KeyError key).
Proof.
  apply (meta_data_has_only_unit_id [17; 3; 0; 0; 0; 2; 196; 11]
                                    [("unit_id", 17)]).
  reflexivity.
Defined.

(** ** [process] *)

(** X4.  [process] does not look at the two trailing bytes of the ADU:
    two frames that differ only in their checksum are processed alike.
    The checksum is not verified here. *)
Theorem process_ignores_checksum
        (C : SerialServer) (F : Functions) (U : Utils)
        (unit_id c1 c2 d1 d2 : Z) (pdu : bytes) (w : world) :
  process (unit_id :: pdu ++ [c1; c2]) w
  = process (unit_id :: pdu ++ [d1; d2]) w.
Proof.
  unfold process.
  now rewrite !get_meta_data_cons, !get_request_pdu_frame.
Qed.


(** ** [execute_route], continued *)

(** X6.  For the exceptions that derive from [Exception], a [ModbusError]
    carrying its [error_code]: if the two helpers of the [except] clauses
    return on the request, [execute_route] returns a PDU, whichever step
    of its [try] body raises and whichever of these exceptions it is.
    Exceptions outside [Exception], and a [ModbusError] object without
    [error_code], are not among the values of [exn]. *)
Theorem execute_route_never_raises
        (F : Functions) (U : Utils) (meta_data : dict) (request_pdu : bytes)
        (w : world) (function_code : Z) :
  get_function_code_from_request_pdu request_pdu = Return function_code ->
  (forall error_code,
      exists pdu, pack_exception_pdu function_code error_code = Return pdu) ->
  exists response_pdu w',
    execute_route meta_data request_pdu w = (Return response_pdu, w').
Proof.
  intros Hfc Hpack.
  destruct (execute_route_try meta_data request_pdu w)
    as [[response_pdu | e] w'] eqn:Htry.
  - exists response_pdu, w'. now apply execute_route_return.
  - rewrite (execute_route_raise _ _ _ _ _ Htry).
    destruct (is_ModbusError e) eqn:He.
    + destruct e; try discriminate He.
      destruct (Hpack error_code) as [pdu Hpdu].
      exists pdu, w'.
      now apply execute_route_except_modbus with (fc := function_code).
    + destruct (Hpack ServerDeviceFailureError_error_code) as [pdu Hpdu].
      eexists pdu, _.
      now apply execute_route_except_other with (fc := function_code).
Qed.

Lemma execute_route_never_raises_witness :
  exists response_pdu w',
    execute_route (F := Double.functions (fun _ => ret Double.read_broken))
                  (U := Spec.utils) [("unit_id", 1)] [3; 0; 0; 0; 2]
                  Double.fresh
    = (Return response_pdu, w').
Proof.
  apply (execute_route_never_raises
           (Double.functions (fun _ => ret Double.read_broken)) Spec.utils
           [("unit_id", 1)] [3; 0; 0; 0; 2] Double.fresh 3).
  - reflexivity.
  - intros error_code. eexists. reflexivity.
Defined.

(** X7.  The [except] clauses are not protected themselves: when the
    request fails and [get_function_code_from_request_pdu] raises on the
    request PDU, that second exception leaves [execute_route]; the first
    one has been logged by then unless it was a [ModbusError]. *)
Theorem execute_route_helper_failure_escapes
        (F : Functions) (U : Utils) (meta_data : dict) (request_pdu : bytes)
        (w w' : world) (e e' : exn) :
  execute_route_try meta_data request_pdu w = (Raise e, w') ->
  get_function_code_from_request_pdu request_pdu = Raise e' ->
  execute_route meta_data request_pdu w
  = (Raise e',
     if is_ModbusError e then w'
     else add_log w' {| log_level := EXCEPTION;
                        log_format := "Could not handle request: {0}.";
                        log_value := of_exn e |}).
Proof.
  intros Htry Hfc. rewrite (execute_route_raise _ _ _ _ _ Htry).
  destruct e; cbn [execute_route_except is_ModbusError];
    unfold bind, lift, log_exception, modify; now rewrite Hfc.
Qed.

Lemma execute_route_helper_failure_escapes_witness :
  execute_route (F := Double.functions (fun _ => raise (Fault "no bytes")))
                (U := Spec.utils) [("unit_id", 1)] [] Double.fresh
  = (Raise StructError,
     add_log Double.fresh
             {| log_level := EXCEPTION;
                log_format := "Could not handle request: {0}.";
                log_value := of_exn (Fault "no bytes") |}).
Proof.
  apply (execute_route_helper_failure_escapes
           (Double.functions (fun _ => raise (Fault "no bytes"))) Spec.utils
           [("unit_id", 1)] [] Double.fresh Double.fresh
           (Fault "no bytes") StructError);
    reflexivity.
Defined.

(** X8.  Meta data without the key ['unit_id']: once the function object
    is built, the lookup raises [KeyError], the function is not executed,
    and the request is answered by the [ServerDeviceFailureError]
    exception PDU with the [KeyError] logged. *)
Theorem execute_route_missing_unit_id
        (F : Functions) (U : Utils) (meta_data : dict) (request_pdu : bytes)
        (w w1 : world) (fn : function) (function_code : Z)
        (exception_pdu : bytes) :
  create_function_from_request_pdu request_pdu w = (Return fn, w1) ->
  (forall unit_id, dict_get meta_data "unit_id" <> Return unit_id) ->
  get_function_code_from_request_pdu request_pdu = Return function_code ->
  pack_exception_pdu function_code ServerDeviceFailureError_error_code
  = Return exception_pdu ->
  execute_route meta_data request_pdu w
  = (Return exception_pdu,
     add_log w1 {| log_level := EXCEPTION;
                   log_format := "Could not handle request: {0}.";
                   log_value := of_exn (KeyError "unit_id") |}).
Proof.
  intros Hcreate Hmissing Hfc Hpack.
  assert (Hkey : forall d key e, dict_get d key = Raise e -> e = KeyError key).
  { induction d as [|[k v] d IH]; intros key e; cbn [dict_get].
    - intros H. now injection H as <-.
    - destruct (String.eqb k key); [discriminate | apply IH]. }
  destruct (dict_get meta_data "unit_id") as [unit_id | e] eqn:Hunit.
  { now destruct (Hmissing unit_id). }
  apply Hkey in Hunit as He. subst e.
  rewrite (execute_route_raise _ _ w w1 (KeyError "unit_id")).
  - now apply execute_route_except_other with (fc := function_code).
  - unfold execute_route_try, bind, lift. now rewrite Hcreate, Hunit.
Qed.

Lemma execute_route_missing_unit_id_witness :
  execute_route
    (F := Double.functions (fun pdu => ret (Double.write_echo pdu)))
    (U := Spec.utils) [("length", 6)] [6; 0; 0; 0; 5] Double.fresh
  = (Return [134; 4],
     add_log Double.fresh
             {| log_level := EXCEPTION;
                log_format := "Could not handle request: {0}.";
                log_value := of_exn (KeyError "unit_id") |}).
Proof.
  apply (execute_route_missing_unit_id
           (Double.functions (fun pdu => ret (Double.write_echo pdu)))
           Spec.utils [("length", 6)] [6; 0; 0; 0; 5]
           Double.fresh Double.fresh (Double.write_echo [6; 0; 0; 0; 5]) 6).
  - reflexivity.
  - intros unit_id. cbn. discriminate.
  - reflexivity.
  - reflexivity.
Defined.

(** X9.  What [execute_route] does on its own account: compared with the
    state in which its [try] body ended, it leaves the serial port, the
    route map and the shutdown flag alone, and it adds to the log either
    nothing or one exception record, the latter exactly when the body
    raised something that is not a [ModbusError]. *)
Theorem execute_route_own_effects
        (F : Functions) (U : Utils) (meta_data : dict) (request_pdu : bytes)
        (w : world) :
  let tried := execute_route_try meta_data request_pdu w in
  let answered := execute_route meta_data request_pdu w in
  serial_port (snd answered) = serial_port (snd tried)
  /\ route_map (snd answered) = route_map (snd tried)
  /\ _shutdown_request (snd answered) = _shutdown_request (snd tried)
  /\ match fst tried with
     | Return response_pdu =>
         answered = (Return response_pdu, snd tried)
     | Raise (ModbusError _) => log (snd answered) = log (snd tried)
     | Raise e =>
         log (snd answered)
         = log (snd tried)
           ++ [ {| log_level := EXCEPTION;
                   log_format := "Could not handle request: {0}.";
                   log_value := of_exn e |} ]
     end.
Proof.
  cbv zeta. unfold execute_route, try_except.
  destruct (execute_route_try meta_data request_pdu w) as [[pdu | e] w'].
  - cbn. repeat split.
  - destruct e; cbn [execute_route_except fst snd];
      unfold bind, lift, log_exception, modify;
      destruct (get_function_code_from_request_pdu request_pdu) as [fc | e'];
      cbn; try (repeat split; fail);
      match goal with
      | |- context [pack_exception_pdu ?a ?b] =>
          destruct (pack_exception_pdu a b); cbn; repeat split
      end.
Qed.

(** ** [respond] and [shutdown] *)

(** X10.  Two calls of [respond] put the two ADUs on the serial port in
    the order of the calls, after what was written before, each with a
    debug record; nothing is raised, and the pending input, the route map
    and the shutdown flag are untouched. *)
Theorem respond_appends_in_order (first second : bytes) (w : world) :
  let result := (respond first;; respond second)%py w in
  fst result = Return tt
  /\ tx (serial_port (snd result)) = tx (serial_port w) ++ [first; second]
  /\ rx (serial_port (snd result)) = rx (serial_port w)
  /\ route_map (snd result) = route_map w
  /\ _shutdown_request (snd result) = _shutdown_request w
  /\ log (snd result)
     = log w ++ [ {| log_level := DEBUG; log_format := "--> {0}";
                     log_value := of_bytes first |};
                  {| log_level := DEBUG; log_format := "--> {0}";
                     log_value := of_bytes second |} ].
Proof.
  cbn. rewrite <- !app_assoc. repeat split.
Qed.

(** X11.  A server that was shut down does not serve: after [shutdown],
    [serve_forever] returns at once, without calling [serve_once] and
    without changing anything.  [shutdown] only sets the flag, and
    calling it again changes nothing. *)
Theorem shutdown_before_serving (C : SerialServer) (fuel : nat) (w : world) :
  let stopped := snd (shutdown w) in
  serve_forever fuel stopped
  = {| ending := Shutdown; iterations := 0; final := stopped |}
  /\ snd (shutdown stopped) = stopped
  /\ fst (shutdown w) = Return tt
  /\ serial_port stopped = serial_port w
  /\ route_map stopped = route_map w
  /\ log stopped = log w.
Proof.
  cbv zeta. split; [now apply serve_forever_shutdown | repeat split].
Qed.

(** ** The serve loop, continued *)

(** X12.  [serve_forever] on an instance of [AbstractSerialServer] itself
    serves nothing: unless the server was shut down before, the first
    iteration raises [NotImplementedError], which leaves the loop with
    the state as it was. *)
Theorem abstract_server_cannot_serve (fuel : nat) (w : world) :
  _shutdown_request w = false ->
  serve_forever (C := AbstractSerialServer) (S fuel) w
  = {| ending := Uncaught NotImplementedError;
       iterations := 1;
       final := w |}.
Proof.
  intros Hflag. now apply serve_forever_uncaught.
Qed.

Lemma abstract_server_cannot_serve_witness :
  serve_forever (C := AbstractSerialServer) 4
                (get_server {| rx := [[1; 3; 0; 0; 0; 2; 196; 11]];
                               tx := [] |})
  = {| ending := Uncaught NotImplementedError;
       iterations := 1;
       final := get_server {| rx := [[1; 3; 0; 0; 0; 2; 196; 11]];
                              tx := [] |} |}.
Proof.
  apply (abstract_server_cannot_serve
           3 (get_server {| rx := [[1; 3; 0; 0; 0; 2; 196; 11]];
                            tx := [] |})).
  reflexivity.
Defined.

(** X14.  The loop does not end by itself.  If, from the states of some
    set, [serve_once] always comes back with the flag unset, normally or
    with a [CRCError], and stays within the set, then from such a state
    [serve_forever] is still looping after any number of iterations. *)
Theorem serve_forever_keeps_running
        (C : SerialServer) (inv : world -> Prop) :
  (forall w, inv w -> _shutdown_request w = false) ->
  (forall w r, inv w -> log_level r = ERROR -> inv (add_log w r)) ->
  (forall w, inv w ->
             match serve_once w with
             | (Return _, w') => inv w'
             | (Raise e, w') => is_CRCError e = true /\ inv w'
             end) ->
  forall fuel w,
    inv w ->
    ending (serve_forever fuel w) = Running
    /\ iterations (serve_forever fuel w) = fuel
    /\ inv (final (serve_forever fuel w)).
Proof.
  intros Hflag Hlog Honce. induction fuel as [|fuel IH]; intros w Hw.
  - cbn [serve_forever]. rewrite (Hflag w Hw). now cbn.
  - pose proof (Hflag w Hw) as Hf. specialize (Honce w Hw).
    destruct (serve_once w) as [[u | e] w'] eqn:Hs.
    + rewrite (serve_forever_returned _ _ _ _ _ Hf Hs).
      destruct (IH w' Honce) as [He [Hi Hinv]].
      cbn [next ending iterations final]. now rewrite He, Hi.
    + destruct Honce as [Hcrc Hw']. destruct e; try discriminate Hcrc.
      rewrite (serve_forever_crc _ _ _ _ _ Hf Hs).
      match goal with |- context [serve_forever fuel ?x] =>
        destruct (IH x) as [He [Hi Hinv]] end.
      { now apply Hlog. }
      cbn [next ending iterations final]. now rewrite He, Hi.
Qed.

Lemma serve_forever_keeps_running_witness :
  ending (serve_forever (C := Double.noisy) 7 Double.fresh) = Running
  /\ iterations (serve_forever (C := Double.noisy) 7 Double.fresh) = 7%nat
  /\ _shutdown_request (final (serve_forever (C := Double.noisy) 7
                                             Double.fresh)) = false.
Proof.
  apply (serve_forever_keeps_running
           Double.noisy (fun w => _shutdown_request w = false)).
  - intros w Hw. exact Hw.
  - intros w r Hw _. exact Hw.
  - intros w Hw. simpl. split; [reflexivity | exact Hw].
  - reflexivity.
Defined.

(** X15.  The loop changes the state only through [serve_once] and by
    logging the [CRCError]s it catches: a property of the state that
    every iteration started with the flag unset preserves, and that
    adding an error record preserves, holds when [serve_forever] ends or
    the budget runs out. *)
Theorem serve_forever_invariant (C : SerialServer) (inv : world -> Prop) :
  (forall w o w',
      inv w -> _shutdown_request w = false -> serve_once w = (o, w') ->
      inv w') ->
  (forall w r, inv w -> log_level r = ERROR -> inv (add_log w r)) ->
  forall fuel w, inv w -> inv (final (serve_forever fuel w)).
Proof.
  intros Honce Hlog. induction fuel as [|fuel IH]; intros w Hw.
  - cbn [serve_forever]. now destruct (_shutdown_request w).
  - destruct (_shutdown_request w) eqn:Hflag.
    { now rewrite serve_forever_shutdown. }
    destruct (serve_once_cases C w)
      as [[u [w' Hs]] | [[msg [w' Hs]] | [e [w' [Hs He]]]]].
    + rewrite (serve_forever_returned _ _ _ _ _ Hflag Hs).
      cbn [next final]. apply IH. now apply (Honce w _ w' Hw Hflag Hs).
    + rewrite (serve_forever_crc _ _ _ _ _ Hflag Hs).
      cbn [next final]. apply IH. apply Hlog; [|reflexivity].
      now apply (Honce w _ w' Hw Hflag Hs).
    + rewrite (serve_forever_uncaught _ _ _ _ _ Hflag Hs He).
      cbn [final]. now apply (Honce w _ w' Hw Hflag Hs).
Qed.

Lemma serve_forever_invariant_witness :
  tx (serial_port (final (serve_forever (C := Double.echo) 9
       (get_server {| rx := [[1; 2]; [7]]; tx := [] |}))))
  ++ rx (serial_port (final (serve_forever (C := Double.echo) 9
       (get_server {| rx := [[1; 2]; [7]]; tx := [] |}))))
  = [[1; 2]; [7]].
Proof.
  apply (serve_forever_invariant
           Double.echo
           (fun w => tx (serial_port w) ++ rx (serial_port w)
                     = [[1; 2]; [7]])).
  - intros w o w' Hw _ Hs. simpl in Hs. unfold Double.echo_once in Hs.
    unfold bind, gets, modify, respond, log_debug, port_write, shutdown,
      ret, raise in Hs.
    destruct (rx (serial_port w)) as [|adu pending] eqn:Hrx.
    + injection Hs as _ <-. now rewrite Hrx.
    + cbn in Hs. rewrite <- Hw.
      destruct adu as [|b [|b' rest]]; try destruct b;
        injection Hs as _ <-; cbn; now rewrite <- app_assoc.
  - intros w r Hw _. exact Hw.
  - reflexivity.
Defined.
